(** * Resurrect: a re-dispatch scheduler for charms

    A shallow embedding of [resurrect.py] (the [Resurrect] object with its
    methods [__init__], [is_started], [prime], [start] and [stop]) and of the
    Python built-ins those methods rely on, followed by the properties of the
    specification that concern them.

    Conventions.
    - A Python [str] is a [string]; its characters are the code points below
      256.  A [Dict[str, str]] is a [gmap string string].
    - Python integers are [Z].
    - The persisted state ([StoredState]), the log and the calls made to the
      operating system are threaded through a state-and-exception monad [M].
    - The operating system is a record [OS] of the process environment and of
      two oracles, one for process creation and one for [os.kill]. *)

From Stdlib Require Import ZArith NArith Ascii String List DecimalString DecimalPos Lia.
From stdpp Require Import base option gmap strings.

Local Open Scope Z_scope.
Local Open Scope string_scope.
Local Open Scope list_scope.

(** ** Python built-ins used by the module *)

Module Py.

(** [str(n)] and the [{n}] of an f-string, for an [int]. *)
Definition str_int (n : Z) : string := NilZero.string_of_int (Z.to_int n).

(** [c.isspace()], for a code point below 256. *)
Definition isspace (c : ascii) : bool :=
  let n := N_of_ascii c in
  (((9 <=? n) && (n <=? 13)) || ((28 <=? n) && (n <=? 32))
   || (n =? 133) || (n =? 160))%N.

(** [s.split()]: the maximal runs of characters that are not whitespace. *)
Fixpoint split (s : string) : list string :=
  match s with
  | EmptyString => []
  | String c rest =>
      if isspace c then split rest
      else
        match rest with
        | EmptyString => [String c EmptyString]
        | String c' _ =>
            if isspace c' then String c EmptyString :: split rest
            else
              match split rest with
              | w :: ws => String c w :: ws
              | [] => [String c EmptyString]
              end
        end
  end.

Definition squote : ascii := ascii_of_nat 39.
Definition dquote : ascii := ascii_of_nat 34.
Definition backslash : ascii := ascii_of_nat 92.

Fixpoint contains (c : ascii) (s : string) : bool :=
  match s with
  | EmptyString => false
  | String c' rest => Ascii.eqb c c' || contains c rest
  end.

(** [c.isprintable()], for a code point below 256: the ASCII range from
    the space to the tilde, and the Latin-1 range without the no-break
    space (160) and the soft hyphen (173). *)
Definition isprintable (c : ascii) : bool :=
  let n := N_of_ascii c in
  (((32 <=? n) && (n <=? 126)) || ((161 <=? n) && negb (n =? 173)))%N.

Definition hex_digit (n : N) : ascii :=
  if (n <? 10)%N then ascii_of_N (48 + n) else ascii_of_N (87 + n).

(** One character of [repr(s)], inside the quotes. *)
Definition repr_char (quote c : ascii) : string :=
  let n := N_of_ascii c in
  if Ascii.eqb c quote || Ascii.eqb c backslash
  then String backslash (String c EmptyString)
  else if (n =? 9)%N then String backslash "t"
  else if (n =? 10)%N then String backslash "n"
  else if (n =? 13)%N then String backslash "r"
  else if isprintable c then String c EmptyString
  else String backslash
         (String "x" (String (hex_digit (n / 16)) (String (hex_digit (n mod 16)) EmptyString))).

Fixpoint repr_body (quote : ascii) (s : string) : string :=
  match s with
  | EmptyString => EmptyString
  | String c rest => repr_char quote c +:+ repr_body quote rest
  end.

(** [repr(s)], the [{s!r}] of an f-string: single quotes, unless the string
    has a single quote and no double quote. *)
Definition repr (s : string) : string :=
  let quote := if contains squote s && negb (contains dquote s) then dquote else squote in
  String quote (repr_body quote s +:+ String quote EmptyString).

(** [datetime.timedelta]: the three normalised attributes. *)
Record timedelta := { days : Z; seconds : Z; microseconds : Z }.

(** [timedelta(days=d, seconds=s, microseconds=us)] on integers: the
    constructor carries microseconds into seconds and seconds into days. *)
Definition timedelta_new (d s us : Z) : timedelta :=
  let s1 := s + us / 1000000 in
  {| days := d + s1 / 86400; seconds := s1 mod 86400; microseconds := us mod 1000000 |}.

(** The invariant of a [timedelta] object. *)
Definition timedelta_wf (td : timedelta) : Prop :=
  0 <= seconds td < 86400 /\ 0 <= microseconds td < 1000000.

(** The whole seconds of the duration, [td // timedelta(seconds=1)]. *)
Definition total_seconds_floor (td : timedelta) : Z := days td * 86400 + seconds td.

(** [bool(td)]. *)
Definition timedelta_bool (td : timedelta) : bool :=
  negb ((days td =? 0) && (seconds td =? 0) && (microseconds td =? 0))%Z.

(** Truth values of the optional arguments. *)
Definition truthy_timedelta (o : option timedelta) : bool :=
  match o with Some td => timedelta_bool td | None => false end.

Definition truthy_dict (o : option (gmap string string)) : bool :=
  match o with Some d => negb (bool_decide (d = ∅)) | None => false end.

Definition truthy_int (o : option Z) : bool :=
  match o with Some n => negb (n =? 0)%Z | None => false end.

(** An argument of a call: left out, or passed. *)
Inductive arg (A : Type) : Type :=
| Omitted
| Passed (a : A).
Arguments Omitted {A}.
Arguments Passed {A} a.

End Py.

Import Py.

(** ** Exceptions, events and the operating system *)

Inductive exn : Type :=
| TypeError (msg : string)
| ValueError (msg : string)
| RuntimeError (msg : string)
| NotStarted
| OSError (errno : Z).

(** The user-supplied readiness check, a Python callable named by the charm. *)
Inductive callable : Type :=
| Function (name : string).

(** What is handed to the operating system when a process is created:
    [Process(target=self._proc_runner, kwargs=...).start()], or
    [Popen(args, env=env, shell=shell)] with [args] a string or a list. *)
Inductive popen_args : Type :=
| ArgString (cmd : string)
| ArgList (argv : list string).

Inductive spawn_req : Type :=
| ProcessStart (check_function : callable) (dispatch_path : string)
    (env : gmap string string)
| Popen (args : popen_args) (env : gmap string string) (shell : bool).

Inductive level : Type := DEBUG | INFO | WARNING.

(** The records sent to [logger], by level and by the values formatted in. *)
Inductive log_msg : Type :=
| RePrimingRunning (pid : Z)
| RePrimingOneShot (pid : Z)
| AlreadyPrimedOverriding
| AlreadyRunning (pid : option Z)
| UsingStoredEnv
| LaunchingWithEmptyEnv
| OverridingDispatchPath (old : string)
| RunningOnPid (pid : Z).

Inductive event : Type :=
| Log (lvl : level) (msg : log_msg)
| Spawn (req : spawn_req)
| Kill (pid : Z) (sig : Z).

(** A call returns a value or raises. *)
Inductive result (A : Type) : Type :=
| Return (a : A)
| Raise (e : exn).
Arguments Return {A} a.
Arguments Raise {A} e.

(** The platform: [os.environ] of the charm process, the outcome of creating
    a process (the pid of the child, a positive number, or an exception) and
    the outcome of [os.kill(pid, sig)]. *)
Record OS : Type := {
  environ : gmap string string;
  os_spawn : spawn_req -> result positive;
  os_kill : Z -> Z -> result unit
}.

(** [os.getenv(name)] *)
Definition getenv (os : OS) (name : string) : option string := environ os !! name.

(** [signal.SIGKILL] *)
Definition SIGKILL : Z := 9.

(** ** The persisted state and the monad *)

(** [_stored]: the two attributes given defaults by [set_default]. *)
Record StoredState : Type := {
  env : gmap string string;
  pid : option Z
}.

Record state : Type := {
  _stored : StoredState;
  trace : list event
}.

Definition M (A : Type) : Type := state -> result A * state.

#[export] Instance M_ret : MRet M := fun A a s => (Return a, s).

#[export] Instance M_bind : MBind M := fun A B k m s =>
  match m s with
  | (Return a, s') => k a s'
  | (Raise e, s') => (Raise e, s')
  end.

Definition raise {A : Type} (e : exn) : M A := fun s => (Raise e, s).

Definition emit (ev : event) : M unit := fun s =>
  (Return tt, {| _stored := _stored s; trace := trace s ++ [ev] |}).

Definition get_env : M (gmap string string) := fun s => (Return (env (_stored s)), s).

Definition get_pid : M (option Z) := fun s => (Return (pid (_stored s)), s).

Definition set_env (e : gmap string string) : M unit := fun s =>
  (Return tt, {| _stored := {| env := e; pid := pid (_stored s) |}; trace := trace s |}).

Definition set_pid (p : option Z) : M unit := fun s =>
  (Return tt, {| _stored := {| env := env (_stored s); pid := p |}; trace := trace s |}).

Definition log (lvl : level) (msg : log_msg) : M unit := emit (Log lvl msg).

Definition when (b : bool) (m : M unit) : M unit := if b then m else mret tt.

(** ** The module's constants *)

Definition juju_dispatch_path : string := "JUJU_DISPATCH_PATH".
Definition operator_dispatch : string := "OPERATOR_DISPATCH".

(** ** The Resurrect object *)

(** The attributes set by [__init__]. *)
Record Resurrect : Type := {
  _every : option timedelta;
  _oneshot : option timedelta;
  _check_method : option callable;
  _allow_empty_env : bool
}.

(** A function object is true. *)
Definition truthy_callable (o : option callable) : bool :=
  match o with Some _ => true | None => false end.

Definition default_arg {A : Type} (d : A) (a : arg A) : A :=
  match a with Omitted => d | Passed x => x end.

(** [self._stored.set_default(env={}, pid=None)]: the attributes keep the
    values persisted by an earlier hook, if there are any. *)
Definition set_default (persisted : option StoredState) : StoredState :=
  match persisted with
  | Some st => st
  | None => {| env := ∅; pid := None |}
  end.

(** [Resurrect.__init__(self, parent, key, oneshot, every, check_method,
    allow_empty_env)].  [persisted] is what the framework holds for this
    object from earlier hooks. *)
Definition __init__ (persisted : option StoredState)
    (key : arg string) (oneshot every : arg (option timedelta))
    (check_method : arg (option callable)) (allow_empty_env : arg bool)
  : result (Resurrect * StoredState) :=
  let oneshot := default_arg None oneshot in
  let every := default_arg None every in
  let check_method := default_arg None check_method in
  let allow_empty_env := default_arg false allow_empty_env in
  if negb (truthy_callable check_method)
     || negb (truthy_timedelta oneshot || truthy_timedelta every)
     || (truthy_timedelta oneshot && truthy_timedelta every)
  then Raise (ValueError "provide one of `check_method`, oneshot`, or`every`.")
  else Return ({| _every := every; _oneshot := oneshot;
                  _check_method := check_method;
                  _allow_empty_env := allow_empty_env |},
               set_default persisted).

(** [is_started(self)] *)
Definition is_started : M (option Z) := get_pid.

(** [prime(self, override, overwrite, use_os_env)] *)
Definition prime (self : Resurrect) (os : OS)
    (override : option (gmap string string)) (overwrite use_os_env : bool) : M unit :=
  let override := default ∅ override in
  p ← is_started;
  match p with
  | Some n =>
      when (truthy_int p)
        (if truthy_timedelta (_every self)
         then log WARNING (RePrimingRunning n)
         else log DEBUG (RePrimingOneShot n))
  | None => mret tt
  end;;
  e ← get_env;
  when (truthy_dict (Some e) && negb overwrite) (log WARNING AlreadyPrimedOverriding);;
  let new_env := if use_os_env then environ os else ∅ in
  let new_env := override ∪ new_env in
  set_env new_env.

(** The object the local variable [env] of [start] refers to: the dictionary
    of the caller, or the one held in [_stored]. *)
Inductive env_ref : Type := CallerDict | StoredDict.

(** [env[k] = v], written through to [_stored.env] when [env] is that
    dictionary. *)
Definition setitem (r : env_ref) (d : gmap string string) (k v : string)
  : M (gmap string string) :=
  let d' := <[k := v]> d in
  match r with
  | StoredDict => set_env d';; mret d'
  | CallerDict => mret d'
  end.

(** [Process(...).start()] and [Popen(...)]: the request reaches the
    platform, which answers with the pid of the child or raises. *)
Definition spawn (os : OS) (req : spawn_req) : M Z :=
  emit (Spawn req);;
  match os_spawn os req with
  | Return p => mret (Z.pos p)
  | Raise e => raise e
  end.

(** [_proc_runner(self, check_function, dispatch_path, env)], the target of
    the process of a [ProcessStart] request: what the child does, in order. *)
Inductive child_step : Type :=
| SetEnviron (env : gmap string string)
| CallCheck (check_function : callable)
| TouchPath (path : string).

Definition _proc_runner (check_function : callable) (dispatch_path : string)
    (env : gmap string string) : list child_step :=
  [SetEnviron env; CallCheck check_function; TouchPath dispatch_path].

(** [f"{os.getenv('JUJU_CHARM_DIR')}/dispatch"] *)
Definition execute_charm (os : OS) : string :=
  default "None" (getenv os "JUJU_CHARM_DIR") +:+ "/dispatch".

(** The object behind an optional duration when it is true, as the branches
    [if self._every:] and [elif self._oneshot:] see it. *)
Definition if_truthy (o : option timedelta) : option timedelta :=
  match o with
  | Some td => if timedelta_bool td then Some td else None
  | None => None
  end.

(** [start(self, env)] *)
Definition start (self : Resurrect) (os : OS)
    (env_arg : option (gmap string string)) : M Z :=
  p ← is_started;
  when (truthy_int p
        && (truthy_callable (_check_method self) || truthy_timedelta (_every self)))
    (log WARNING (AlreadyRunning p));;
  '(r, e) ← (if negb (truthy_dict env_arg)
             then log DEBUG UsingStoredEnv;; e ← get_env; mret (StoredDict, e)
             else mret (CallerDict, default ∅ env_arg));
  when (negb (truthy_dict (Some e)) && negb (_allow_empty_env self))
    (log WARNING LaunchingWithEmptyEnv);;
  log INFO (OverridingDispatchPath (default EmptyString (e !! juju_dispatch_path)));;
  e ← setitem r e juju_dispatch_path "hooks/resurrect";
  e ← setitem r e operator_dispatch "1";
  proc_pid ←
    match _check_method self with
    | Some check_function => spawn os (ProcessStart check_function (execute_charm os) e)
    | None =>
        match if_truthy (_every self), if_truthy (_oneshot self) with
        | Some every, _ =>
            let resurrect_command :=
              split ("watch -n " +:+ str_int (seconds every) +:+ " "
                     +:+ repr (execute_charm os)) in
            spawn os (Popen (ArgList resurrect_command) e (truthy_timedelta (_oneshot self)))
        | None, Some oneshot =>
            let resurrect_command :=
              "sleep " +:+ str_int (seconds oneshot) +:+ "; " +:+ execute_charm os in
            spawn os (Popen (ArgString resurrect_command) e (truthy_timedelta (_oneshot self)))
        | None, None =>
            raise (RuntimeError "One of _check_methid, _every, or _oneshot need to be set.")
        end
    end;
  log INFO (RunningOnPid proc_pid);;
  set_pid (Some proc_pid);;
  mret proc_pid.

(** [stop(self, pid, sig)] *)
Definition stop (os : OS) (pid_arg : option Z) (sig : Z) : M unit :=
  stored_pid ← get_pid;
  let target := match pid_arg with Some n => Some n | None => stored_pid end in
  match target with
  | None => raise NotStarted
  | Some n =>
      emit (Kill n sig);;
      match os_kill os n sig with
      | Return _ => set_pid None
      | Raise e => raise e
      end
  end.

(** ** The methods as they are called

    [start] and [prime] declare their first parameter without a default;
    [stop] has defaults for both. *)

Definition call_start (self : Resurrect) (os : OS)
    (env_arg : arg (option (gmap string string))) : M Z :=
  match env_arg with
  | Omitted => raise (TypeError "Resurrect.start() missing 1 required positional argument: 'env'")
  | Passed e => start self os e
  end.

Definition call_prime (self : Resurrect) (os : OS)
    (override : arg (option (gmap string string))) (overwrite use_os_env : arg bool)
  : M unit :=
  match override with
  | Omitted => raise (TypeError "Resurrect.prime() missing 1 required positional argument: 'override'")
  | Passed o => prime self os o (default_arg false overwrite) (default_arg true use_os_env)
  end.

Definition call_stop (os : OS) (pid_arg : arg (option Z)) (sig : arg Z) : M unit :=
  stop os (default_arg None pid_arg) (default_arg SIGKILL sig).

(** ** Reading a run *)

Definition initial (st : StoredState) : state := {| _stored := st; trace := [] |}.

(** The process-creation requests of a trace, in order. *)
Fixpoint spawned (tr : list event) : list spawn_req :=
  match tr with
  | [] => []
  | Spawn req :: tr' => req :: spawned tr'
  | _ :: tr' => spawned tr'
  end.

(** The signals of a trace, in order. *)
Fixpoint signals (tr : list event) : list (Z * Z) :=
  match tr with
  | [] => []
  | Kill n sig :: tr' => (n, sig) :: signals tr'
  | _ :: tr' => signals tr'
  end.

(** The environment a request gives to the child. *)
Definition spawn_env (req : spawn_req) : gmap string string :=
  match req with
  | ProcessStart _ _ e => e
  | Popen _ e _ => e
  end.

(** The dictionary [start] works on: the argument when it is true, the
    stored one otherwise. *)
Definition effective_env (env_arg : option (gmap string string)) (st : StoredState)
  : gmap string string :=
  if truthy_dict env_arg then default ∅ env_arg else env st.

(** The two keys [start] writes. *)
Definition child_env (e : gmap string string) : gmap string string :=
  <[operator_dispatch := "1"]> (<[juju_dispatch_path := "hooks/resurrect"]> e).

(** At least one of the three strategies is true. *)
Definition has_strategy (self : Resurrect) : bool :=
  truthy_callable (_check_method self)
  || truthy_timedelta (_every self) || truthy_timedelta (_oneshot self).

(** The records [start] logs before it creates the process. *)
Definition start_log (self : Resurrect) (env_arg : option (gmap string string))
    (st : StoredState) : list event :=
  (if truthy_int (pid st)
      && (truthy_callable (_check_method self) || truthy_timedelta (_every self))
   then [Log WARNING (AlreadyRunning (pid st))] else [])
  ++ (if truthy_dict env_arg then [] else [Log DEBUG UsingStoredEnv])
  ++ (if negb (truthy_dict (Some (effective_env env_arg st))) && negb (_allow_empty_env self)
      then [Log WARNING LaunchingWithEmptyEnv] else [])
  ++ [Log INFO (OverridingDispatchPath
                  (default EmptyString (effective_env env_arg st !! juju_dispatch_path)))].

(** [_stored] once the two keys are written: untouched when [start] works
    on the dictionary of the caller. *)
Definition stored_after_setitem (env_arg : option (gmap string string))
    (st : StoredState) : StoredState :=
  if truthy_dict env_arg then st
  else {| env := child_env (env st); pid := pid st |}.

(** The request [start] makes for a configuration, if it makes one. *)
Definition start_request (self : Resurrect) (os : OS) (e : gmap string string)
  : option spawn_req :=
  match _check_method self with
  | Some f => Some (ProcessStart f (execute_charm os) e)
  | None =>
      match if_truthy (_every self), if_truthy (_oneshot self) with
      | Some every, _ =>
          Some (Popen (ArgList (split ("watch -n " +:+ str_int (seconds every) +:+ " "
                                       +:+ repr (execute_charm os))))
                  e (truthy_timedelta (_oneshot self)))
      | None, Some oneshot =>
          Some (Popen (ArgString ("sleep " +:+ str_int (seconds oneshot) +:+ "; "
                                  +:+ execute_charm os))
                  e (truthy_timedelta (_oneshot self)))
      | None, None => None
      end
  end.

(** The dictionary [prime] stores. *)
Definition merged_env (os : OS) (override : option (gmap string string))
    (use_os_env : bool) : gmap string string :=
  default ∅ override ∪ (if use_os_env then environ os else ∅).

(** The records [prime] logs. *)
Definition prime_log (self : Resurrect) (overwrite : bool) (st : StoredState)
  : list event :=
  match pid st with
  | Some n =>
      if truthy_int (pid st)
      then [Log (if truthy_timedelta (_every self) then WARNING else DEBUG)
              (if truthy_timedelta (_every self)
               then RePrimingRunning n else RePrimingOneShot n)]
      else []
  | None => []
  end
  ++ (if truthy_dict (Some (env st)) && negb overwrite
      then [Log WARNING AlreadyPrimedOverriding] else []).

(** The process [stop] signals: the argument, else the stored pid. *)
Definition resolve_pid (pid_arg : option Z) (st : StoredState) : option Z :=
  match pid_arg with
  | Some n => Some n
  | None => pid st
  end.

(** How many of the options of a configuration are given. *)
Definition is_set {A : Type} (o : option A) : nat :=
  match o with Some _ => 1%nat | None => 0%nat end.

(** The environments of the processes a computation creates, from a fresh
    trace. *)
Definition launched {A : Type} (m : M A) (st : StoredState)
  : list (gmap string string) :=
  List.map spawn_env (spawned (trace (snd (m (initial st))))).

(** A call that returns. *)
Definition is_Some_result {A : Type} (r : result A) : bool :=
  match r with Return _ => true | Raise _ => false end.

(** No whitespace in a string. *)
Fixpoint nospace (s : string) : bool :=
  match s with
  | EmptyString => true
  | String c rest => negb (isspace c) && nospace rest
  end.

(** ** A charm to run the methods on *)

Definition charm_os : OS :=
  {| environ := {[ "JUJU_CHARM_DIR" := "/var/lib/juju/charm"; "PATH" := "/usr/bin" ]};
     os_spawn := fun _ => Return 4242%positive;
     os_kill := fun _ _ => Return tt |}.

(** A platform on which the process to signal is gone ([ESRCH]). *)
Definition gone_os : OS :=
  {| environ := environ charm_os;
     os_spawn := os_spawn charm_os;
     os_kill := fun _ _ => Raise (OSError 3) |}.

Definition check_charm : Resurrect :=
  {| _every := None; _oneshot := None;
     _check_method := Some (Function "_check_endpoint");
     _allow_empty_env := false |}.

Definition oneshot_charm (td : timedelta) (allow : bool) : Resurrect :=
  {| _every := None; _oneshot := Some td; _check_method := None;
     _allow_empty_env := allow |}.

Definition every_charm (td : timedelta) (allow : bool) : Resurrect :=
  {| _every := Some td; _oneshot := None; _check_method := None;
     _allow_empty_env := allow |}.

Definition custom_env : gmap string string := {[ "CUSTOM_ENV_VAR" := "foo" ]}.

(** A platform that refuses to create processes ([EAGAIN]). *)
Definition refusing_os : OS :=
  {| environ := environ charm_os;
     os_spawn := fun _ => Raise (OSError 11);
     os_kill := os_kill charm_os |}.

(** A platform whose environment has no [JUJU_CHARM_DIR]. *)
Definition bare_os : OS :=
  {| environ := ∅;
     os_spawn := os_spawn charm_os;
     os_kill := os_kill charm_os |}.

(** The platform at a later call: the next child has another pid. *)
Definition later_os : OS :=
  {| environ := environ charm_os;
     os_spawn := fun _ => Return 4243%positive;
     os_kill := os_kill charm_os |}.

(** A call that raises a [TypeError], whatever text the interpreter gives
    it. *)
Definition is_TypeError {A : Type} (r : result A) : bool :=
  match r with
  | Raise (TypeError _) => true
  | _ => false
  end.

(** ** The shell, on commands without quoting or expansion

    [Popen(cmd, shell=True)] runs [sh -c cmd].  For a command made of words,
    blanks and semicolons, the shell runs the simple commands between the
    semicolons one after the other, each given by its words. *)

(** The texts between the semicolons of a command. *)
Fixpoint sh_list (cmd : string) : list string :=
  match cmd with
  | EmptyString => [EmptyString]
  | String c rest =>
      if Ascii.eqb ";" c then EmptyString :: sh_list rest
      else
        match sh_list rest with
        | w :: ws => String c w :: ws
        | [] => [String c EmptyString]
        end
  end.

(** The simple commands the shell runs, in order, each as its words. *)
Definition sh_commands (cmd : string) : list (list string) :=
  List.map split (sh_list cmd).

(** A character the shell takes as it is: a letter, a digit, or one of
    [-], [.], [/] and [_]. *)
Definition sh_plain_char (c : ascii) : bool :=
  let n := N_of_ascii c in
  (((45 <=? n) && (n <=? 57)) || ((65 <=? n) && (n <=? 90))
   || (n =? 95) || ((97 <=? n) && (n <=? 122)))%N.

Fixpoint sh_plain (s : string) : bool :=
  match s with
  | EmptyString => true
  | String c rest => sh_plain_char c && sh_plain rest
  end.

(** ** The example charm, [ingress.py] *)

(** [MyCharm._on_start]: [self.resurrect.prime({'CUSTOM_ENV_VAR':'foo'})]
    and then [self.resurrect.start()], both with the arguments the handler
    writes and no others. *)
Definition _on_start (resurrect : Resurrect) (os : OS) : M unit :=
  call_prime resurrect os (Passed (Some custom_env)) Omitted Omitted;;
  call_start resurrect os Omitted;;
  mret tt.

(** [MyCharm._on_remove]: [self.resurrect.stop()]. *)
Definition _on_remove (os : OS) : M unit := call_stop os Omitted Omitted.

(** ** Paths that [repr] leaves as they are *)

(** A character [repr] copies between single quotes and [split] keeps: it
    is printable and is no space, single quote or backslash. *)
Definition plain_char (c : ascii) : bool :=
  isprintable c && negb (isspace c)
  && negb (Ascii.eqb c squote) && negb (Ascii.eqb c backslash).

Fixpoint plain (s : string) : bool :=
  match s with
  | EmptyString => true
  | String c rest => plain_char c && plain rest
  end.

(** ** Properties *)

Lemma spawned_app (l1 l2 : list event) : spawned (l1 ++ l2) = spawned l1 ++ spawned l2.
Proof.
  induction l1 as [|ev l1 IH]; simpl; [reflexivity|].
  destruct ev; simpl; rewrite ?IH; reflexivity.
Qed.

Lemma signals_app (l1 l2 : list event) : signals (l1 ++ l2) = signals l1 ++ signals l2.
Proof.
  induction l1 as [|ev l1 IH]; simpl; [reflexivity|].
  destruct ev; simpl; rewrite ?IH; reflexivity.
Qed.

Lemma spawned_start_log self a st : spawned (start_log self a st) = [].
Proof.
  unfold start_log. rewrite !spawned_app.
  repeat match goal with |- context [if ?b then _ else _] => destruct b end; reflexivity.
Qed.

Lemma signals_start_log self a st : signals (start_log self a st) = [].
Proof.
  unfold start_log. rewrite !signals_app.
  repeat match goal with |- context [if ?b then _ else _] => destruct b end; reflexivity.
Qed.

Lemma if_truthy_truthy o : truthy_timedelta o = bool_decide (is_Some (if_truthy o)).
Proof.
  destruct o as [td|]; simpl; [|reflexivity].
  destruct (timedelta_bool td); reflexivity.
Qed.

(** What a call of [start] does, in full. *)
Lemma start_run self os a s :
  let st := _stored s in
  let e := child_env (effective_env a st) in
  let st' := stored_after_setitem a st in
  let pre := trace s ++ start_log self a st in
  start self os a s =
    match start_request self os e with
    | None =>
        (Raise (RuntimeError "One of _check_methid, _every, or _oneshot need to be set."),
         {| _stored := st'; trace := pre |})
    | Some req =>
        match os_spawn os req with
        | Raise ex => (Raise ex, {| _stored := st'; trace := pre ++ [Spawn req] |})
        | Return p =>
            (Return (Z.pos p),
             {| _stored := {| env := env st'; pid := Some (Z.pos p) |};
                trace := pre ++ [Spawn req; Log INFO (RunningOnPid (Z.pos p))] |})
        end
    end.
Proof.
  destruct s as [[e0 p0] tr]. simpl.
  unfold start, start_request, start_log, stored_after_setitem, effective_env, child_env.
  unfold is_started, get_pid, get_env, set_env, set_pid, setitem, spawn, log, emit, when, raise.
  unfold mbind, M_bind, mret, M_ret. simpl.
  destruct (truthy_int p0 && _) ; simpl;
  destruct (truthy_dict a) eqn:Ha; simpl;
  repeat match goal with
    | |- context [if negb ?b && ?c then _ else _] => destruct (negb b && c); simpl
    end;
  destruct (_check_method self) as [f|]; simpl;
  repeat match goal with
    | |- context [os_spawn os ?r] => destruct (os_spawn os r); simpl
    | |- context [if_truthy ?o] => destruct (if_truthy o); simpl
    end;
  rewrite <- ?app_assoc; simpl; reflexivity.
Qed.

(** What a call of [prime] does, in full. *)
Lemma prime_run self os override overwrite use_os_env s :
  prime self os override overwrite use_os_env s =
    (Return tt,
     {| _stored := {| env := merged_env os override use_os_env; pid := pid (_stored s) |};
        trace := trace s ++ prime_log self overwrite (_stored s) |}).
Proof.
  destruct s as [[e0 p0] tr]. simpl.
  unfold prime, prime_log, merged_env.
  unfold is_started, get_pid, get_env, set_env, log, emit, when.
  unfold mbind, M_bind, mret, M_ret. simpl.
  destruct p0 as [n|]; simpl;
  repeat match goal with
    | |- context [if ?b then _ else _] => destruct b; simpl
    end;
  rewrite <- ?app_assoc, ?app_nil_r; simpl; reflexivity.
Qed.

(** What a call of [stop] does, in full. *)
Lemma stop_run os pid_arg sig s :
  stop os pid_arg sig s =
    match resolve_pid pid_arg (_stored s) with
    | None => (Raise NotStarted, s)
    | Some n =>
        let tr := trace s ++ [Kill n sig] in
        match os_kill os n sig with
        | Return _ =>
            (Return tt, {| _stored := {| env := env (_stored s); pid := None |}; trace := tr |})
        | Raise ex => (Raise ex, {| _stored := _stored s; trace := tr |})
        end
    end.
Proof.
  destruct s as [[e0 p0] tr]. simpl.
  unfold stop, resolve_pid, get_pid, set_pid, emit, raise.
  unfold mbind, M_bind, mret, M_ret. simpl.
  destruct pid_arg as [n|]; [|destruct p0 as [n|]]; simpl; try reflexivity;
  destruct (os_kill os n sig); reflexivity.
Qed.

Lemma start_request_env self os e req :
  start_request self os e = Some req -> spawn_env req = e.
Proof.
  unfold start_request.
  destruct (_check_method self); [intros [= <-]; reflexivity|].
  destruct (if_truthy (_every self)); [intros [= <-]; reflexivity|].
  destruct (if_truthy (_oneshot self)); [intros [= <-]; reflexivity|discriminate].
Qed.

Lemma start_request_is_Some self os e :
  has_strategy self = true -> is_Some (start_request self os e).
Proof.
  unfold has_strategy, start_request, truthy_callable, truthy_timedelta, if_truthy.
  destruct (_check_method self); [eauto|]. simpl.
  destruct (_every self) as [ev|]; [destruct (timedelta_bool ev); [eauto|]|];
  (destruct (_oneshot self) as [on|]; [destruct (timedelta_bool on)|]); simpl; eauto; discriminate.
Qed.


(** ** Construction *)

(** [__init__] returns exactly when the check method is given together with
    one true duration, and not both durations. *)
Lemma init_returns_iff persisted key oneshot every check_method allow :
  is_Some_result (__init__ persisted key (Passed oneshot) (Passed every)
                    (Passed check_method) allow) = true
  <-> truthy_callable check_method = true
      /\ xorb (truthy_timedelta oneshot) (truthy_timedelta every) = true.
Proof.
  unfold __init__, is_Some_result. simpl.
  destruct (truthy_callable check_method), (truthy_timedelta oneshot),
    (truthy_timedelta every); simpl; intuition discriminate.
Qed.

(** No object that [__init__] returns is without a check method. *)
Lemma init_check_method_set persisted key oneshot every check_method allow self st :
  __init__ persisted key oneshot every check_method allow = Return (self, st) ->
  truthy_callable (_check_method self) = true.
Proof.
  unfold __init__.
  destruct (truthy_callable (default_arg None check_method)) eqn:Hc; simpl; [|discriminate].
  destruct (negb _ || _); [discriminate|].
  intros [= <- _]. exact Hc.
Qed.

(** C1, on the code: a configuration that gives exactly one of [oneshot],
    [every] and [check_method] is refused by [__init__] with the
    [ValueError], where the specification has the construction succeed. *)
Theorem init_exactly_one_raises persisted key oneshot every check_method allow :
  (is_set oneshot + is_set every + is_set check_method = 1)%nat ->
  __init__ persisted key (Passed oneshot) (Passed every) (Passed check_method) allow
  = Raise (ValueError "provide one of `check_method`, oneshot`, or`every`.").
Proof.
  unfold __init__. simpl.
  destruct check_method as [f|], oneshot as [o|], every as [e|]; simpl;
    try discriminate; intros _; reflexivity.
Qed.

Lemma init_exactly_one_raises_witness :
  __init__ None Omitted (Passed None) (Passed None) (Passed (Some (Function "check")))
    Omitted
  = Raise (ValueError "provide one of `check_method`, oneshot`, or`every`.").
Proof.
  apply (init_exactly_one_raises None Omitted None None (Some (Function "check")) Omitted).
  reflexivity.
Defined.

(** The configurations [__init__] accepts give two of the three options. *)
Example init_check_and_oneshot_returns :
  __init__ None Omitted (Passed (Some (timedelta_new 0 5 0))) Omitted
    (Passed (Some (Function "check"))) Omitted
  = Return ({| _every := None; _oneshot := Some (timedelta_new 0 5 0);
               _check_method := Some (Function "check"); _allow_empty_env := false |},
            {| env := ∅; pid := None |}).
Proof. reflexivity. Qed.

(** ** stop *)

(** C3: with no stored pid and no pid argument, [stop] raises [NotStarted];
    the state and the trace are as before, so no signal is sent. *)
Theorem stop_not_started os (pid_arg : arg (option Z)) sig s :
  pid (_stored s) = None ->
  default_arg None pid_arg = None ->
  call_stop os pid_arg sig s = (Raise NotStarted, s)
  /\ signals (trace (snd (call_stop os pid_arg sig s))) = signals (trace s).
Proof.
  intros Hp Ha. unfold call_stop. rewrite stop_run, Ha.
  unfold resolve_pid. rewrite Hp. split; reflexivity.
Qed.

Lemma stop_not_started_witness :
  let os := {| environ := ∅; os_spawn := fun _ => Return 1%positive;
               os_kill := fun _ _ => Return tt |} in
  call_stop os Omitted Omitted (initial (set_default None))
  = (Raise NotStarted, initial (set_default None))
  /\ signals (trace (snd (call_stop os Omitted Omitted (initial (set_default None))))) = [].
Proof.
  intros os.
  apply (stop_not_started os Omitted Omitted (initial (set_default None)));
    reflexivity.
Defined.

(** C4, amended: with a process to signal, [stop] sends the signal; if the
    platform delivers it, the stored pid is cleared and [is_started] gives
    [None]; if the platform raises, [stop] raises the same exception and
    the stored state is as before. *)
Theorem stop_clears_pid_when_delivered os pid_arg sig s n :
  resolve_pid pid_arg (_stored s) = Some n ->
  let r := stop os pid_arg sig s in
  signals (trace (snd r)) = signals (trace s) ++ [(n, sig)]
  /\ match os_kill os n sig with
     | Return _ =>
         fst r = Return tt
         /\ pid (_stored (snd r)) = None
         /\ fst (is_started (snd r)) = Return None
         /\ truthy_int (pid (_stored (snd r))) = false
     | Raise ex => fst r = Raise ex /\ _stored (snd r) = _stored s
     end.
Proof.
  intros Hn r. subst r. rewrite stop_run, Hn. simpl.
  destruct (os_kill os n sig); simpl; rewrite signals_app; simpl; auto.
Qed.

(** C4, as stated, fails: the process is gone, [os.kill] raises, and the pid
    stays stored. *)
Lemma stop_keeps_pid_when_kill_raises :
  let os := {| environ := ∅; os_spawn := fun _ => Return 1%positive;
               os_kill := fun _ _ => Raise (OSError 3) |} in
  let s := initial {| env := ∅; pid := Some 4242 |} in
  resolve_pid None (_stored s) = Some 4242
  /\ fst (stop os None SIGKILL s) = Raise (OSError 3)
  /\ pid (_stored (snd (stop os None SIGKILL s))) = Some 4242
  /\ truthy_int (pid (_stored (snd (stop os None SIGKILL s)))) = true.
Proof. repeat split. Qed.

Lemma stop_clears_pid_when_delivered_witness :
  let os := {| environ := ∅; os_spawn := fun _ => Return 1%positive;
               os_kill := fun _ _ => Return tt |} in
  let s := initial {| env := ∅; pid := Some 4242 |} in
  signals (trace (snd (stop os None SIGKILL s))) = [(4242, SIGKILL)]
  /\ fst (stop os None SIGKILL s) = Return tt
  /\ pid (_stored (snd (stop os None SIGKILL s))) = None
  /\ fst (is_started (snd (stop os None SIGKILL s))) = Return None
  /\ truthy_int (pid (_stored (snd (stop os None SIGKILL s)))) = false.
Proof.
  intros os s.
  exact (stop_clears_pid_when_delivered os None SIGKILL s 4242 eq_refl).
Defined.

(** ** prime *)

(** In the stored dictionary a key of the override has the value of the
    override, and any other key the value of the base. *)
Lemma merged_env_lookup os override use_os_env k :
  merged_env os override use_os_env !! k =
    match default ∅ override !! k with
    | Some v => Some v
    | None => (if use_os_env then environ os else ∅) !! k
    end.
Proof.
  unfold merged_env. rewrite lookup_union.
  destruct (default ∅ override !! k) as [v|] eqn:Hk; simpl;
    destruct ((if use_os_env then environ os else ∅) !! k); reflexivity.
Qed.

(** C8: [prime] returns whatever the state, primed or with a pid stored, and
    whatever [overwrite]; afterwards the stored dictionary is the override
    merged over the base and the stored pid is as before. *)
Theorem prime_never_raises self os override overwrite use_os_env s :
  let r := call_prime self os (Passed override) (Passed overwrite) (Passed use_os_env) s in
  fst r = Return tt
  /\ env (_stored (snd r)) = default ∅ override ∪ (if use_os_env then environ os else ∅)
  /\ pid (_stored (snd r)) = pid (_stored s)
  /\ _stored (snd r)
     = _stored (snd (call_prime self os (Passed override) (Passed (negb overwrite))
                       (Passed use_os_env) s)).
Proof.
  unfold call_prime. simpl. rewrite !prime_run. simpl. repeat split.
Qed.

(** ** start *)

Lemma start_spawned self os a s :
  spawned (trace (snd (start self os a s)))
  = spawned (trace s)
    ++ option_list (start_request self os (child_env (effective_env a (_stored s)))).
Proof.
  rewrite start_run.
  destruct (start_request _ _ _) as [req|]; simpl.
  - destruct (os_spawn os req); simpl;
      rewrite !spawned_app, spawned_start_log, app_nil_r; reflexivity.
  - rewrite !spawned_app, spawned_start_log. reflexivity.
Qed.

Lemma spawned_prime_log self overwrite st : spawned (prime_log self overwrite st) = [].
Proof.
  unfold prime_log. rewrite spawned_app.
  destruct (pid st); simpl;
    repeat match goal with |- context [if ?b then _ else _] => destruct b; simpl end;
    reflexivity.
Qed.

(** C2, amended: [prime] and then [start] with [None] for [env] creates one
    process, whose environment is the override merged over the base (a key
    of the override has the value of the override) with the dispatch path
    and the operator-dispatch marker written on top. *)
Theorem prime_then_start_launches self os_p os_s override overwrite use_os_env st :
  has_strategy self = true ->
  launched (prime self os_p override overwrite use_os_env;;
            call_start self os_s (Passed None)) st
  = [<[operator_dispatch := "1"]>
       (<[juju_dispatch_path := "hooks/resurrect"]>
          (default ∅ override ∪ (if use_os_env then environ os_p else ∅)))].
Proof.
  intros Hs. unfold launched, call_start.
  unfold mbind at 1, M_bind. rewrite prime_run. rewrite start_spawned. simpl.
  rewrite spawned_prime_log. simpl.
  destruct (start_request_is_Some self os_s
              (child_env (merged_env os_p override use_os_env)) Hs) as [req Hreq].
  unfold effective_env. simpl. rewrite Hreq. simpl.
  rewrite (start_request_env _ _ _ _ Hreq). reflexivity.
Qed.

Lemma prime_then_start_launches_witness :
  launched (prime check_charm charm_os (Some custom_env) false true;;
            call_start check_charm charm_os (Passed None)) (set_default None)
  = [<[operator_dispatch := "1"]>
       (<[juju_dispatch_path := "hooks/resurrect"]> (custom_env ∪ environ charm_os))].
Proof.
  exact (prime_then_start_launches check_charm charm_os charm_os (Some custom_env)
           false true (set_default None) eq_refl).
Defined.

(** C2, as stated, fails: the process is not created with the merged
    dictionary itself, which has no operator-dispatch marker. *)
Lemma prime_then_start_not_merged_env :
  launched (prime check_charm charm_os (Some custom_env) false true;;
            call_start check_charm charm_os (Passed None)) (set_default None)
  <> [custom_env ∪ environ charm_os].
Proof.
  intros H.
  apply (f_equal (fun l => match l with
                           | e :: _ => e !! operator_dispatch
                           | [] => None
                           end)) in H.
  vm_compute in H. discriminate H.
Qed.

(** The slip the amended C2 leaves out: [start] declares [env] without a
    default, so the call [start()] of the example charm raises. *)
Lemma call_start_omitted self os s :
  call_start self os Omitted s
  = (Raise (TypeError "Resurrect.start() missing 1 required positional argument: 'env'"), s).
Proof. reflexivity. Qed.

Lemma child_env_dispatch_path e : child_env e !! juju_dispatch_path = Some "hooks/resurrect".
Proof.
  unfold child_env. rewrite lookup_insert_ne by discriminate. apply lookup_insert_eq.
Qed.

Lemma child_env_operator_dispatch e : child_env e !! operator_dispatch = Some "1".
Proof. unfold child_env. apply lookup_insert_eq. Qed.

Lemma child_env_other e k :
  k <> juju_dispatch_path -> k <> operator_dispatch -> child_env e !! k = e !! k.
Proof.
  intros H1 H2. unfold child_env. rewrite !lookup_insert_ne by congruence. reflexivity.
Qed.

Lemma child_env_dom e : dom e ⊆ dom (child_env e).
Proof. unfold child_env. rewrite !dom_insert_L. set_solver. Qed.

(** C5: whatever dictionary [start] works on, the process it creates gets an
    environment with every key of that dictionary, with the value it had
    unless the key is one of the two [start] writes, with the dispatch path
    set to the hook of the scheduler and the operator-dispatch marker set
    to ["1"]. *)
Theorem start_child_environment self os a s :
  has_strategy self = true ->
  exists req,
    spawned (trace (snd (start self os a s))) = spawned (trace s) ++ [req]
    /\ spawn_env req !! juju_dispatch_path = Some "hooks/resurrect"
    /\ spawn_env req !! operator_dispatch = Some "1"
    /\ dom (effective_env a (_stored s)) ⊆ dom (spawn_env req)
    /\ forall k v, k <> juju_dispatch_path -> k <> operator_dispatch ->
         effective_env a (_stored s) !! k = Some v -> spawn_env req !! k = Some v.
Proof.
  intros Hs.
  destruct (start_request_is_Some self os (child_env (effective_env a (_stored s))) Hs)
    as [req Hreq].
  exists req. rewrite start_spawned, Hreq, (start_request_env _ _ _ _ Hreq).
  split; [reflexivity|].
  split; [apply child_env_dispatch_path|].
  split; [apply child_env_operator_dispatch|].
  split; [apply child_env_dom|].
  intros k v H1 H2 Hk. rewrite child_env_other; assumption.
Qed.

(** The scenario of C5: after [prime({"CUSTOM_ENV_VAR": "foo"})], the child
    has [CUSTOM_ENV_VAR=foo] and the two keys. *)
Lemma start_child_environment_witness :
  let primed :=
    snd (prime check_charm charm_os (Some custom_env) false true
           (initial (set_default None))) in
  exists req,
    spawned (trace (snd (start check_charm charm_os None primed))) = [req]
    /\ spawn_env req !! "CUSTOM_ENV_VAR" = Some "foo"
    /\ spawn_env req !! juju_dispatch_path = Some "hooks/resurrect"
    /\ spawn_env req !! operator_dispatch = Some "1".
Proof.
  intros primed.
  destruct (start_child_environment check_charm charm_os None primed eq_refl)
    as (req & Hsp & Hj & Ho & _ & Hk).
  exists req. split; [exact Hsp|]. split; [|split; assumption].
  apply Hk; [discriminate|discriminate|]. vm_compute. reflexivity.
Defined.

(** C6: when a call of [start] returns a pid, that pid is what [_stored]
    holds and what [is_started] gives afterwards, and it counts as true. *)
Theorem start_then_is_started self os a s n s' :
  call_start self os a s = (Return n, s') ->
  fst (is_started s') = Return (Some n)
  /\ pid (_stored s') = Some n
  /\ truthy_int (Some n) = true.
Proof.
  destruct a as [|e]; [discriminate|].
  unfold call_start. rewrite start_run.
  destruct (start_request _ _ _) as [req|]; [|discriminate].
  destruct (os_spawn os req) as [p|ex]; [|discriminate].
  intros [= <- <-]. repeat split.
Qed.

Lemma start_then_is_started_witness :
  let r := call_start check_charm charm_os (Passed None) (initial (set_default None)) in
  fst r = Return 4242
  /\ fst (is_started (snd r)) = Return (Some 4242)
  /\ pid (_stored (snd r)) = Some 4242
  /\ truthy_int (Some 4242) = true.
Proof.
  intros r. split; [reflexivity|].
  apply (start_then_is_started check_charm charm_os (Passed None)
           (initial (set_default None)) 4242 (snd r)).
  reflexivity.
Defined.

(** C9: [start] with an empty dictionary for [env] is [start] with [None]:
    the process gets the stored dictionary (with the two keys written); a
    dictionary that is not empty is the one the process gets. *)
Theorem start_empty_env_uses_stored self os s (d : gmap string string) :
  has_strategy self = true ->
  d <> ∅ ->
  start self os (Some ∅) s = start self os None s
  /\ (exists req,
        spawned (trace (snd (start self os (Some ∅) s))) = spawned (trace s) ++ [req]
        /\ spawn_env req = child_env (env (_stored s)))
  /\ (exists req,
        spawned (trace (snd (start self os (Some d) s))) = spawned (trace s) ++ [req]
        /\ spawn_env req = child_env d).
Proof.
  intros Hs Hd. split; [reflexivity|]. split.
  - destruct (start_request_is_Some self os (child_env (env (_stored s))) Hs) as [req Hreq].
    exists req. rewrite start_spawned. unfold effective_env. simpl.
    rewrite bool_decide_eq_true_2 by reflexivity. simpl.
    rewrite Hreq. split; [reflexivity|]. exact (start_request_env _ _ _ _ Hreq).
  - destruct (start_request_is_Some self os (child_env d) Hs) as [req Hreq].
    exists req. rewrite start_spawned. unfold effective_env. simpl.
    rewrite bool_decide_eq_false_2 by exact Hd. simpl.
    rewrite Hreq. split; [reflexivity|]. exact (start_request_env _ _ _ _ Hreq).
Qed.

Lemma start_empty_env_uses_stored_witness :
  let primed :=
    snd (prime check_charm charm_os (Some custom_env) false true
           (initial (set_default None))) in
  start check_charm charm_os (Some ∅) primed = start check_charm charm_os None primed
  /\ (exists req,
        spawned (trace (snd (start check_charm charm_os (Some ∅) primed)))
        = spawned (trace primed) ++ [req]
        /\ spawn_env req = child_env (env (_stored primed)))
  /\ (exists req,
        spawned (trace (snd (start check_charm charm_os (Some custom_env) primed)))
        = spawned (trace primed) ++ [req]
        /\ spawn_env req = child_env custom_env).
Proof.
  intros primed.
  apply (start_empty_env_uses_stored check_charm charm_os primed custom_env eq_refl).
  intros H. vm_compute in H. discriminate H.
Defined.

(** ** The commands *)

Lemma split_word w r :
  w <> EmptyString -> nospace w = true ->
  split (w +:+ String " " r) = w :: split r.
Proof.
  induction w as [|c w IH]; [congruence|]. intros _ Hw.
  simpl in Hw. apply andb_prop in Hw as [Hc Hw].
  apply negb_true_iff in Hc.
  destruct w as [|c' w].
  - simpl. rewrite Hc. reflexivity.
  - assert (Hc' : isspace c' = false).
    { simpl in Hw. apply andb_prop in Hw as [Hc' _]. apply negb_true_iff in Hc'. exact Hc'. }
    specialize (IH ltac:(discriminate) Hw).
    change (String c (String c' w) +:+ String " " r)
      with (String c (String c' w +:+ String " " r)).
    change (split (String c (String c' w +:+ String " " r)))
      with (if isspace c then split (String c' w +:+ String " " r)
            else if isspace c' then String c EmptyString :: split (String c' w +:+ String " " r)
            else match split (String c' w +:+ String " " r) with
                 | w0 :: ws => String c w0 :: ws
                 | [] => [String c EmptyString]
                 end).
    rewrite Hc, Hc', IH. reflexivity.
Qed.

Lemma nospace_string_of_uint d : nospace (NilZero.string_of_uint d) = true.
Proof.
  assert (H : forall u, nospace (NilEmpty.string_of_uint u) = true).
  { induction u; cbn [NilEmpty.string_of_uint nospace]; rewrite ?IHu; reflexivity. }
  destruct d; try apply H. reflexivity.
Qed.

Lemma str_int_nospace n : nospace (str_int n) = true.
Proof.
  unfold str_int. destruct (Z.to_int n); simpl; auto using nospace_string_of_uint.
Qed.

Lemma string_of_uint_nonempty d : d <> Decimal.Nil -> NilZero.string_of_uint d <> EmptyString.
Proof. destruct d; simpl; congruence || discriminate. Qed.

Lemma str_int_nonempty n : str_int n <> EmptyString.
Proof.
  unfold str_int. destruct n as [|p|p]; simpl; try discriminate.
  apply string_of_uint_nonempty, DecimalPos.Unsigned.to_uint_nonnil.
Qed.

(** The list [start] gives to [Popen] in interval mode. *)
Lemma watch_command n exe :
  split ("watch -n " +:+ str_int n +:+ " " +:+ repr exe)
  = "watch" :: "-n" :: str_int n :: split (repr exe).
Proof.
  change ("watch -n " +:+ str_int n +:+ " " +:+ repr exe)
    with ("watch" +:+ String " " ("-n" +:+ String " " (str_int n +:+ String " " (repr exe)))).
  rewrite split_word by (discriminate || reflexivity).
  rewrite split_word by (discriminate || reflexivity).
  rewrite split_word by (apply str_int_nonempty || apply str_int_nospace).
  reflexivity.
Qed.

Lemma timedelta_wf_seconds td :
  timedelta_wf td -> seconds td = total_seconds_floor td mod 86400.
Proof.
  intros [Hs _]. unfold total_seconds_floor.
  rewrite Z.add_comm, Z.mod_add by lia. symmetry. apply Z.mod_small. exact Hs.
Qed.

(** C10: the number in the command is the [seconds] attribute of the
    duration, its whole seconds modulo one day, for [oneshot] and for
    [every] alike; whole days do not show in the command. *)
Theorem delay_is_seconds_within_day td allow os a s :
  timedelta_wf td ->
  timedelta_bool td = true ->
  spawned (trace (snd (start (oneshot_charm td allow) os a s)))
  = spawned (trace s)
    ++ [Popen (ArgString ("sleep " +:+ str_int (total_seconds_floor td mod 86400)
                          +:+ "; " +:+ execute_charm os))
          (child_env (effective_env a (_stored s))) true]
  /\ spawned (trace (snd (start (every_charm td allow) os a s)))
     = spawned (trace s)
       ++ [Popen (ArgList ("watch" :: "-n" :: str_int (total_seconds_floor td mod 86400)
                           :: split (repr (execute_charm os))))
             (child_env (effective_env a (_stored s))) false].
Proof.
  intros Hwf Htd. rewrite !start_spawned.
  unfold start_request, oneshot_charm, every_charm.
  cbn [_check_method _every _oneshot if_truthy truthy_timedelta option_list].
  rewrite Htd, watch_command, <- (timedelta_wf_seconds td Hwf). split; reflexivity.
Qed.

(** One day and five seconds: the command sleeps, or repeats every,
    5 seconds. *)
Lemma delay_is_seconds_within_day_witness :
  let td := timedelta_new 1 5 0 in
  let s := initial {| env := custom_env; pid := None |} in
  total_seconds_floor td = 86405
  /\ spawned (trace (snd (start (oneshot_charm td false) charm_os None s)))
     = [Popen (ArgString "sleep 5; /var/lib/juju/charm/dispatch")
          (child_env custom_env) true]
  /\ spawned (trace (snd (start (every_charm td false) charm_os None s)))
     = [Popen (ArgList ["watch"; "-n"; "5"; "'/var/lib/juju/charm/dispatch'"])
          (child_env custom_env) false].
Proof.
  intros td s. split; [reflexivity|].
  apply (delay_is_seconds_within_day td false charm_os None s).
  - vm_compute. intuition discriminate.
  - reflexivity.
Defined.

(** The constructor of [timedelta] puts whole days aside: durations that
    differ by days have the same [seconds]. *)
Lemma timedelta_new_seconds_days d d' sec us :
  seconds (timedelta_new d sec us) = seconds (timedelta_new d' sec us).
Proof. reflexivity. Qed.

Lemma timedelta_new_wf d sec us : timedelta_wf (timedelta_new d sec us).
Proof.
  unfold timedelta_wf, timedelta_new. simpl.
  split; apply Z.mod_pos_bound; lia.
Qed.

(** ** Further properties of construction and of start *)

Lemma start_request_None self os e :
  has_strategy self = false -> start_request self os e = None.
Proof.
  unfold has_strategy, start_request, truthy_callable, truthy_timedelta, if_truthy.
  destruct (_check_method self); [discriminate|]. simpl.
  destruct (_every self) as [ev|]; [destruct (timedelta_bool ev); [discriminate|]|];
  (destruct (_oneshot self) as [on|]; [destruct (timedelta_bool on)|]);
    simpl; intros; reflexivity || discriminate.
Qed.

(** X2: an object that [__init__] returned always starts the process of the
    check method; [start] never reaches [Popen] for it, whatever durations
    it was given. *)
Theorem constructed_starts_check_process
    persisted key oneshot every check_method allow self st os a s :
  __init__ persisted key oneshot every check_method allow = Return (self, st) ->
  exists f,
    _check_method self = Some f
    /\ spawned (trace (snd (start self os a s)))
       = spawned (trace s)
         ++ [ProcessStart f (execute_charm os) (child_env (effective_env a (_stored s)))].
Proof.
  intros Hinit. pose proof (init_check_method_set _ _ _ _ _ _ _ _ Hinit) as Hc.
  destruct (_check_method self) as [f|] eqn:Hf; [|discriminate].
  exists f. split; [reflexivity|].
  rewrite start_spawned. unfold start_request. rewrite Hf. reflexivity.
Qed.

Lemma constructed_starts_check_process_witness :
  exists f,
    Some (Function "check") = Some f
    /\ spawned (trace (snd (start
         {| _every := None; _oneshot := Some (timedelta_new 0 5 0);
            _check_method := Some (Function "check"); _allow_empty_env := false |}
         charm_os None (initial (set_default None))))) 
       = [ProcessStart f "/var/lib/juju/charm/dispatch" (child_env ∅)].
Proof.
  exact (constructed_starts_check_process None Omitted
           (Passed (Some (timedelta_new 0 5 0))) Omitted
           (Passed (Some (Function "check"))) Omitted _ _ charm_os None
           (initial (set_default None)) eq_refl).
Defined.

(** X3: without a true strategy [start] raises the [RuntimeError] and
    creates no process, but only after it has written the two keys: when it
    works on the stored dictionary, that dictionary is changed all the
    same.  The stored pid is as before. *)
Theorem start_without_strategy self os a s :
  has_strategy self = false ->
  let r := start self os a s in
  fst r = Raise (RuntimeError "One of _check_methid, _every, or _oneshot need to be set.")
  /\ spawned (trace (snd r)) = spawned (trace s)
  /\ pid (_stored (snd r)) = pid (_stored s)
  /\ env (_stored (snd r))
     = if truthy_dict a then env (_stored s) else child_env (env (_stored s)).
Proof.
  intros Hs r. subst r. rewrite start_spawned, start_run.
  rewrite !(start_request_None _ _ _ Hs). simpl.
  unfold stored_after_setitem. rewrite app_nil_r.
  destruct (truthy_dict a); repeat split.
Qed.

Lemma start_without_strategy_witness :
  let self := {| _every := None; _oneshot := None; _check_method := None;
                 _allow_empty_env := false |} in
  let r := start self charm_os None (initial {| env := custom_env; pid := None |}) in
  fst r = Raise (RuntimeError "One of _check_methid, _every, or _oneshot need to be set.")
  /\ spawned (trace (snd r)) = []
  /\ pid (_stored (snd r)) = None
  /\ env (_stored (snd r)) = child_env custom_env.
Proof.
  intros self r.
  exact (start_without_strategy self charm_os None
           (initial {| env := custom_env; pid := None |}) eq_refl).
Defined.

(** X4: when the platform refuses to create the process, [start] raises
    the exception of the platform after one request; the stored pid is as
    before. *)
Theorem start_spawn_refused self os a s ex :
  has_strategy self = true ->
  (forall req, os_spawn os req = Raise ex) ->
  let r := start self os a s in
  fst r = Raise ex
  /\ pid (_stored (snd r)) = pid (_stored s)
  /\ exists req, spawned (trace (snd r)) = spawned (trace s) ++ [req].
Proof.
  intros Hs Hos r. subst r. rewrite start_spawned, start_run.
  destruct (start_request_is_Some self os
              (child_env (effective_env a (_stored s))) Hs) as [req Hreq].
  rewrite Hreq, Hos. simpl. unfold stored_after_setitem.
  split; [reflexivity|]. split; [destruct (truthy_dict a); reflexivity|].
  exists req. reflexivity.
Qed.

Lemma start_spawn_refused_witness :
  let r := start check_charm refusing_os None (initial {| env := ∅; pid := Some 7 |}) in
  fst r = Raise (OSError 11)
  /\ pid (_stored (snd r)) = Some 7
  /\ exists req, spawned (trace (snd r)) = [req].
Proof.
  intros r.
  exact (start_spawn_refused check_charm refusing_os None
           (initial {| env := ∅; pid := Some 7 |}) (OSError 11) eq_refl
           (fun _ => eq_refl)).
Defined.

Lemma start_stored_env self os a s :
  env (_stored (snd (start self os a s))) = env (stored_after_setitem a (_stored s)).
Proof.
  rewrite start_run.
  destruct (start_request _ _ _) as [req|]; [destruct (os_spawn os req)|]; reflexivity.
Qed.

Lemma start_signals self os a s :
  signals (trace (snd (start self os a s))) = signals (trace s).
Proof.
  rewrite start_run.
  destruct (start_request _ _ _) as [req|]; [destruct (os_spawn os req)|]; simpl;
    rewrite !signals_app, signals_start_log, ?app_nil_r; reflexivity.
Qed.

(** X5: [start] writes its two keys into the dictionary it works on.  With
    [None] or an empty dictionary for [env] that is the stored dictionary,
    which has the two keys afterwards, whether or not a process was
    created; with a dictionary that is not empty the stored one is as
    before. *)
Theorem start_writes_through_stored_env self os s (d : gmap string string) :
  d <> ∅ ->
  env (_stored (snd (start self os None s)))
  = <[operator_dispatch := "1"]>
      (<[juju_dispatch_path := "hooks/resurrect"]> (env (_stored s)))
  /\ env (_stored (snd (start self os (Some ∅) s)))
     = env (_stored (snd (start self os None s)))
  /\ env (_stored (snd (start self os (Some d) s))) = env (_stored s).
Proof.
  intros Hd. rewrite !start_stored_env. unfold stored_after_setitem. simpl.
  rewrite bool_decide_eq_true_2 by reflexivity.
  rewrite bool_decide_eq_false_2 by exact Hd.
  repeat split.
Qed.

Lemma start_writes_through_stored_env_witness :
  let s := initial {| env := custom_env; pid := None |} in
  env (_stored (snd (start check_charm charm_os None s)))
  = <[operator_dispatch := "1"]> (<[juju_dispatch_path := "hooks/resurrect"]> custom_env)
  /\ env (_stored (snd (start check_charm charm_os (Some ∅) s)))
     = env (_stored (snd (start check_charm charm_os None s)))
  /\ env (_stored (snd (start check_charm charm_os (Some {[ "A" := "b" ]}) s)))
     = custom_env.
Proof.
  intros s.
  apply (start_writes_through_stored_env check_charm charm_os s {[ "A" := "b" ]}).
  intros H. vm_compute in H. discriminate H.
Defined.

Lemma child_env_idemp e : child_env (child_env e) = child_env e.
Proof.
  apply map_eq. intros k.
  destruct (decide (k = operator_dispatch)) as [->|Ho];
    [rewrite !child_env_operator_dispatch; reflexivity|].
  destruct (decide (k = juju_dispatch_path)) as [->|Hj];
    [rewrite !child_env_dispatch_path; reflexivity|].
  rewrite !child_env_other by assumption. reflexivity.
Qed.

(** X6: a second [start] does not signal the process of the first.  The
    platform of the second call may answer with another pid than that of
    the first: the trace has no signal, the stored pid becomes the pid the
    second call returned, and both processes are created with the same
    environment. *)
Theorem start_twice self os os' s n1 s1 n2 s2 :
  start self os None s = (Return n1, s1) ->
  start self os' None s1 = (Return n2, s2) ->
  pid (_stored s1) = Some n1
  /\ pid (_stored s2) = Some n2
  /\ signals (trace s2) = signals (trace s)
  /\ exists req1 req2,
       spawned (trace s2) = spawned (trace s) ++ [req1; req2]
       /\ spawn_env req1 = child_env (env (_stored s))
       /\ spawn_env req2 = child_env (env (_stored s)).
Proof.
  intros H1 H2.
  pose proof (start_signals self os None s) as Hg1.
  pose proof (start_signals self os' None s1) as Hg2.
  pose proof (start_spawned self os None s) as Hp1.
  pose proof (start_spawned self os' None s1) as Hp2.
  pose proof (start_stored_env self os None s) as He1.
  rewrite H1 in Hg1, Hp1, He1. rewrite H2 in Hg2, Hp2. simpl in *.
  split.
  { rewrite start_run in H1.
    destruct (start_request _ _ _) as [r|]; [|discriminate].
    destruct (os_spawn os r); [|discriminate]. injection H1 as <- <-. reflexivity. }
  split.
  { rewrite start_run in H2.
    destruct (start_request _ _ _) as [r|]; [|discriminate].
    destruct (os_spawn os' r); [|discriminate]. injection H2 as <- <-. reflexivity. }
  split; [congruence|].
  unfold effective_env in Hp1, Hp2. simpl in Hp1, Hp2.
  rewrite He1 in Hp2. unfold stored_after_setitem in Hp2. simpl in Hp2.
  rewrite child_env_idemp in Hp2.
  assert (Hs1 : is_Some (start_request self os (child_env (env (_stored s))))).
  { rewrite start_run in H1. simpl in H1. unfold effective_env in H1. simpl in H1.
    destruct (start_request _ _ _) as [r|]; [eauto|discriminate]. }
  assert (Hs2 : is_Some (start_request self os' (child_env (env (_stored s))))).
  { destruct (start_request self os' (child_env (env (_stored s)))) as [r|] eqn:Hr;
      [eauto|].
    rewrite start_run in H2. simpl in H2. unfold effective_env in H2. simpl in H2.
    rewrite He1 in H2. unfold stored_after_setitem in H2. simpl in H2.
    rewrite child_env_idemp, Hr in H2. discriminate. }
  destruct Hs1 as [req1 Hreq1]. destruct Hs2 as [req2 Hreq2].
  rewrite Hreq1 in Hp1. rewrite Hreq2 in Hp2. simpl in Hp1, Hp2.
  exists req1, req2. rewrite Hp2, Hp1, <- app_assoc.
  split; [reflexivity|].
  split; [exact (start_request_env _ _ _ _ Hreq1)|exact (start_request_env _ _ _ _ Hreq2)].
Qed.

Lemma start_twice_witness :
  let s := initial {| env := custom_env; pid := None |} in
  let s1 := snd (start check_charm charm_os None s) in
  let s2 := snd (start check_charm later_os None s1) in
  pid (_stored s1) = Some 4242
  /\ pid (_stored s2) = Some 4243
  /\ signals (trace s2) = []
  /\ exists req1 req2,
       spawned (trace s2) = [req1; req2]
       /\ spawn_env req1 = child_env custom_env
       /\ spawn_env req2 = child_env custom_env.
Proof.
  intros s s1 s2.
  exact (start_twice check_charm charm_os later_os s 4242 s1 4243 s2 eq_refl eq_refl).
Defined.

(** X7: [allow_empty_env] changes what [start] logs and nothing else: the
    result, the stored state, the processes created and the signals are
    the same for either value. *)
Theorem allow_empty_env_only_logs every oneshot check_method os a s :
  let self allow := {| _every := every; _oneshot := oneshot;
                       _check_method := check_method; _allow_empty_env := allow |} in
  fst (start (self true) os a s) = fst (start (self false) os a s)
  /\ _stored (snd (start (self true) os a s)) = _stored (snd (start (self false) os a s))
  /\ spawned (trace (snd (start (self true) os a s)))
     = spawned (trace (snd (start (self false) os a s)))
  /\ signals (trace (snd (start (self true) os a s)))
     = signals (trace (snd (start (self false) os a s))).
Proof.
  intros self. rewrite !start_spawned, !start_signals, !start_run.
  change (start_request (self true) os) with (start_request (self false) os).
  split; [|split; [|split; reflexivity]];
    (destruct (start_request _ _ _) as [req|]; [destruct (os_spawn os req)|]; reflexivity).
Qed.

(** X8: the dispatch path is built from [JUJU_CHARM_DIR] of the charm
    process, not of the dictionary given to the child; when the variable is
    not set there, the path is ["None/dispatch"], whatever [env] has. *)
Theorem dispatch_path_without_charm_dir self os a s f :
  _check_method self = Some f ->
  environ os !! "JUJU_CHARM_DIR" = None ->
  spawned (trace (snd (start self os a s)))
  = spawned (trace s)
    ++ [ProcessStart f "None/dispatch" (child_env (effective_env a (_stored s)))].
Proof.
  intros Hf Hdir. rewrite start_spawned. unfold start_request, execute_charm, getenv.
  rewrite Hf, Hdir. reflexivity.
Qed.

Lemma dispatch_path_without_charm_dir_witness :
  spawned (trace (snd (start check_charm bare_os
                         (Some {[ "JUJU_CHARM_DIR" := "/var/lib/juju/charm" ]})
                         (initial (set_default None)))))
  = [ProcessStart (Function "_check_endpoint") "None/dispatch"
       (child_env {[ "JUJU_CHARM_DIR" := "/var/lib/juju/charm" ]})].
Proof.
  exact (dispatch_path_without_charm_dir check_charm bare_os
           (Some {[ "JUJU_CHARM_DIR" := "/var/lib/juju/charm" ]})
           (initial (set_default None)) (Function "_check_endpoint") eq_refl eq_refl).
Defined.

(** ** Further properties of stop and of prime *)

(** X9: [start] and then [stop()] with its defaults: the one signal sent is
    [SIGKILL], to the pid [start] returned; when it is delivered the pid is
    cleared, and the stored dictionary is the one [start] left. *)
Theorem start_then_stop self os a s n s1 :
  start self os a s = (Return n, s1) ->
  os_kill os n SIGKILL = Return tt ->
  let r := call_stop os Omitted Omitted s1 in
  fst r = Return tt
  /\ pid (_stored (snd r)) = None
  /\ env (_stored (snd r)) = env (_stored s1)
  /\ signals (trace (snd r)) = signals (trace s) ++ [(n, 9)].
Proof.
  intros Hst Hk r. subst r. unfold call_stop. simpl.
  assert (Hp : pid (_stored s1) = Some n).
  { rewrite start_run in Hst.
    destruct (start_request _ _ _) as [req|]; [|discriminate].
    destruct (os_spawn os req); [|discriminate]. injection Hst as <- <-. reflexivity. }
  pose proof (start_signals self os a s) as Hg. rewrite Hst in Hg. simpl in Hg.
  rewrite stop_run. unfold resolve_pid. rewrite Hp, Hk. simpl.
  rewrite signals_app, Hg. repeat split.
Qed.

Lemma start_then_stop_witness :
  let s1 := snd (start check_charm charm_os None (initial (set_default None))) in
  let r := call_stop charm_os Omitted Omitted s1 in
  fst r = Return tt
  /\ pid (_stored (snd r)) = None
  /\ env (_stored (snd r)) = env (_stored s1)
  /\ signals (trace (snd r)) = [(4242, 9)].
Proof.
  intros s1 r.
  exact (start_then_stop check_charm charm_os None (initial (set_default None))
           4242 s1 eq_refl eq_refl).
Defined.

(** X10: after a [stop] whose signal was delivered, a [stop] without a pid
    raises [NotStarted] and sends nothing more. *)
Theorem stop_twice os pid_arg sig sig' s n :
  resolve_pid pid_arg (_stored s) = Some n ->
  os_kill os n sig = Return tt ->
  let r := (stop os pid_arg sig;; stop os None sig') s in
  fst r = Raise NotStarted
  /\ signals (trace (snd r)) = signals (trace s) ++ [(n, sig)]
  /\ pid (_stored (snd r)) = None.
Proof.
  intros Hn Hk r. subst r. unfold mbind, M_bind.
  rewrite stop_run, Hn. simpl. rewrite Hk. rewrite stop_run. simpl.
  rewrite signals_app. repeat split.
Qed.

Lemma stop_twice_witness :
  let s := initial {| env := ∅; pid := Some 4242 |} in
  let r := (stop charm_os None SIGKILL;; stop charm_os None SIGKILL) s in
  fst r = Raise NotStarted
  /\ signals (trace (snd r)) = [(4242, SIGKILL)]
  /\ pid (_stored (snd r)) = None.
Proof.
  intros s r.
  exact (stop_twice charm_os None SIGKILL SIGKILL s 4242 eq_refl eq_refl).
Defined.

(** X11: [prime] replaces the stored dictionary, it does not add to it: a
    [prime] after another leaves the stored state a single [prime] would
    leave. *)
Theorem prime_twice self os1 os2 o1 o2 ow1 ow2 u1 u2 s :
  _stored (snd ((prime self os1 o1 ow1 u1;; prime self os2 o2 ow2 u2) s))
  = _stored (snd (prime self os2 o2 ow2 u2 s)).
Proof. unfold mbind, M_bind. rewrite !prime_run. reflexivity. Qed.

(** X12: reading the dictionary [prime] stored: a key of the override has
    the value of the override; any other key has the value of [os.environ]
    when [use_os_env] is true and is missing otherwise. *)
Theorem prime_lookup self os override overwrite use_os_env s k :
  env (_stored (snd (prime self os override overwrite use_os_env s))) !! k
  = match default ∅ override !! k with
    | Some v => Some v
    | None => if use_os_env then environ os !! k else None
    end.
Proof.
  rewrite prime_run. simpl. rewrite merged_env_lookup.
  destruct (default ∅ override !! k); [reflexivity|].
  destruct use_os_env; [reflexivity|apply lookup_empty].
Qed.

Lemma signals_prime_log self overwrite st : signals (prime_log self overwrite st) = [].
Proof.
  unfold prime_log. rewrite signals_app.
  destruct (pid st); simpl;
    repeat match goal with |- context [if ?b then _ else _] => destruct b; simpl end;
    reflexivity.
Qed.

(** X13: [prime] creates no process and sends no signal, also when a pid is
    stored: the process of an earlier [start] keeps the environment it was
    created with. *)
Theorem prime_leaves_processes_alone self os override overwrite use_os_env s :
  spawned (trace (snd (prime self os override overwrite use_os_env s)))
  = spawned (trace s)
  /\ signals (trace (snd (prime self os override overwrite use_os_env s)))
     = signals (trace s).
Proof.
  rewrite prime_run. simpl.
  rewrite spawned_app, signals_app, spawned_prime_log, signals_prime_log, !app_nil_r.
  split; reflexivity.
Qed.

(** X14: [start] warns about an empty environment exactly when the
    dictionary it works on is empty and [allow_empty_env] is false. *)
Theorem start_warns_on_empty_env self os a st :
  In (Log WARNING LaunchingWithEmptyEnv) (trace (snd (start self os a (initial st))))
  <-> effective_env a st = ∅ /\ _allow_empty_env self = false.
Proof.
  rewrite start_run. simpl.
  set (e := effective_env a st).
  assert (Hlog : In (Log WARNING LaunchingWithEmptyEnv) (start_log self a st)
                 <-> e = ∅ /\ _allow_empty_env self = false).
  { unfold start_log. fold e. simpl. rewrite !in_app_iff.
    destruct (truthy_int (pid st) && _), (truthy_dict a),
      (bool_decide_reflect (e = ∅)) as [He|He], (_allow_empty_env self); simpl;
      intuition (discriminate || congruence). }
  destruct (start_request _ _ _) as [req|]; [destruct (os_spawn os req)|]; simpl;
    rewrite ?in_app_iff, Hlog; simpl; intuition (discriminate || congruence).
Qed.

(** ** The handlers of the example charm *)

Lemma on_start_run resurrect os s :
  _on_start resurrect os s
  = (Raise (TypeError "Resurrect.start() missing 1 required positional argument: 'env'"),
     {| _stored := {| env := merged_env os (Some custom_env) true; pid := pid (_stored s) |};
        trace := trace s ++ prime_log resurrect false (_stored s) |}).
Proof.
  unfold _on_start, call_prime, call_start. simpl.
  unfold mbind, M_bind. rewrite prime_run. reflexivity.
Qed.

(** X15: the start handler of the example charm primes and then calls
    [start()] without the argument [start] requires: it always raises a
    [TypeError]; the environment is stored, no process is created and the
    stored pid is as before. *)
Theorem on_start_raises_TypeError resurrect os s :
  let r := _on_start resurrect os s in
  is_TypeError (fst r) = true
  /\ env (_stored (snd r)) = custom_env ∪ environ os
  /\ pid (_stored (snd r)) = pid (_stored s)
  /\ spawned (trace (snd r)) = spawned (trace s).
Proof.
  intros r. subst r. rewrite on_start_run. simpl.
  rewrite spawned_app, spawned_prime_log, app_nil_r. repeat split.
Qed.

(** X16: on a charm that had no pid stored, the remove handler after the
    start handler raises [NotStarted] and sends no signal. *)
Theorem on_remove_after_on_start resurrect os os' s :
  pid (_stored s) = None ->
  let r := _on_remove os' (snd (_on_start resurrect os s)) in
  fst r = Raise NotStarted
  /\ signals (trace (snd r)) = signals (trace s).
Proof.
  intros Hp r. subst r. unfold _on_remove, call_stop. simpl.
  rewrite on_start_run, stop_run. unfold resolve_pid. simpl. rewrite Hp. simpl.
  rewrite signals_app, signals_prime_log, app_nil_r. split; reflexivity.
Qed.

Lemma on_remove_after_on_start_witness :
  let r := _on_remove charm_os
             (snd (_on_start check_charm charm_os (initial (set_default None)))) in
  fst r = Raise NotStarted /\ signals (trace (snd r)) = [].
Proof.
  intros r.
  exact (on_remove_after_on_start check_charm charm_os charm_os
           (initial (set_default None)) eq_refl).
Defined.

(** ** The argument list of the interval command *)

Lemma split_single w :
  w <> EmptyString -> nospace w = true -> split w = [w].
Proof.
  induction w as [|c w IH]; [congruence|]. intros _ Hw.
  simpl in Hw. apply andb_prop in Hw as [Hc Hw]. apply negb_true_iff in Hc.
  destruct w as [|c' w].
  - simpl. rewrite Hc. reflexivity.
  - assert (Hc' : isspace c' = false).
    { simpl in Hw. apply andb_prop in Hw as [Hc' _]. apply negb_true_iff in Hc'. exact Hc'. }
    specialize (IH ltac:(discriminate) Hw).
    change (split (String c (String c' w)))
      with (if isspace c then split (String c' w)
            else if isspace c' then String c EmptyString :: split (String c' w)
            else match split (String c' w) with
                 | w0 :: ws => String c w0 :: ws
                 | [] => [String c EmptyString]
                 end).
    rewrite Hc, Hc', IH. reflexivity.
Qed.

Lemma plain_char_spec c :
  plain_char c = true ->
  repr_char squote c = String c EmptyString
  /\ Ascii.eqb squote c = false
  /\ isspace c = false.
Proof.
  destruct c as [[] [] [] [] [] [] [] []]; vm_compute;
    intros H; first [discriminate H | repeat split].
Qed.

Lemma plain_spec s :
  plain s = true ->
  repr_body squote s = s /\ contains squote s = false /\ nospace s = true.
Proof.
  induction s as [|c s IH]; [repeat split|].
  cbn [plain repr_body contains nospace]. intros H. apply andb_prop in H as [Hc Hs].
  destruct (plain_char_spec c Hc) as (Hr & Hq & Hsp).
  destruct (IH Hs) as (IHr & IHq & IHn).
  rewrite Hr, IHr, Hq, IHq, Hsp, IHn. repeat split.
Qed.

Lemma nospace_app u v : nospace (u +:+ v) = nospace u && nospace v.
Proof.
  induction u as [|c u IH]; [reflexivity|].
  simpl. rewrite IH. apply andb_assoc.
Qed.

(** X17: in interval mode, for a dispatch path of plain characters
    (printable, no whitespace, no single quote, no backslash), [Popen] gets
    four arguments without a shell, and the last is the path between two
    single quote characters that are part of the argument. *)
Theorem watch_argv_plain_path td allow os a s :
  timedelta_bool td = true ->
  plain (execute_charm os) = true ->
  spawned (trace (snd (start (every_charm td allow) os a s)))
  = spawned (trace s)
    ++ [Popen (ArgList ["watch"; "-n"; str_int (seconds td);
                        String squote (execute_charm os +:+ String squote EmptyString)])
          (child_env (effective_env a (_stored s))) false].
Proof.
  intros Htd Hpl. rewrite start_spawned.
  unfold start_request, every_charm.
  cbn [_check_method _every _oneshot if_truthy truthy_timedelta option_list].
  rewrite Htd, watch_command.
  destruct (plain_spec _ Hpl) as (Hr & Hq & Hn).
  unfold repr. rewrite Hq. cbn [andb]. cbv zeta. rewrite Hr.
  rewrite split_single; [reflexivity|discriminate|].
  change (nospace (String squote (execute_charm os +:+ String squote EmptyString)))
    with (negb (isspace squote)
          && nospace (execute_charm os +:+ String squote EmptyString)).
  rewrite nospace_app, Hn. reflexivity.
Qed.

Lemma watch_argv_plain_path_witness :
  spawned (trace (snd (start (every_charm (timedelta_new 0 30 0) false) charm_os None
                         (initial (set_default None)))))
  = [Popen (ArgList ["watch"; "-n"; "30"; "'/var/lib/juju/charm/dispatch'"])
       (child_env ∅) false].
Proof.
  exact (watch_argv_plain_path (timedelta_new 0 30 0) false charm_os None
           (initial (set_default None)) eq_refl eq_refl).
Defined.

(** ** The one-shot command *)

Lemma sh_list_no_semicolon u :
  contains ";" u = false -> sh_list u = [u].
Proof.
  induction u as [|c u IH]; [reflexivity|].
  cbn [contains sh_list]. intros H. apply orb_false_iff in H as [Hc Hu].
  rewrite Hc, (IH Hu). reflexivity.
Qed.

Lemma sh_list_semicolon u v :
  contains ";" u = false -> sh_list (u +:+ String ";" v) = u :: sh_list v.
Proof.
  induction u as [|c u IH]; [reflexivity|].
  cbn [contains]. intros H. apply orb_false_iff in H as [Hc Hu].
  change (String c u +:+ String ";" v) with (String c (u +:+ String ";" v)).
  cbn [sh_list]. rewrite Hc, (IH Hu). reflexivity.
Qed.

Lemma contains_app c u v : contains c (u +:+ v) = contains c u || contains c v.
Proof.
  induction u as [|c' u IH]; [reflexivity|].
  simpl. rewrite IH. apply orb_assoc.
Qed.

Lemma sh_plain_char_spec c :
  sh_plain_char c = true -> Ascii.eqb ";" c = false /\ isspace c = false.
Proof.
  destruct c as [[] [] [] [] [] [] [] []]; vm_compute;
    intros H; first [discriminate H | split; reflexivity].
Qed.

Lemma sh_plain_spec s :
  sh_plain s = true -> contains ";" s = false /\ nospace s = true.
Proof.
  induction s as [|c s IH]; [split; reflexivity|].
  cbn [sh_plain contains nospace]. intros H. apply andb_prop in H as [Hc Hs].
  destruct (sh_plain_char_spec c Hc) as [Hsemi Hsp].
  destruct (IH Hs) as [IHc IHn].
  rewrite Hsemi, IHc, Hsp, IHn. split; reflexivity.
Qed.

(** C7: an object with [oneshot] of five seconds, no check method and no
    interval, on a host whose [JUJU_CHARM_DIR] is [dir]: [start] creates one
    process, [Popen] with [shell=True], on the command ["sleep 5; "]
    followed by the dispatch entry point [dir/dispatch].  For a directory of
    plain characters the shell runs two commands: [sleep 5], and then the
    entry point, once and without arguments. *)
Theorem oneshot_five_seconds_command allow os a s dir :
  getenv os "JUJU_CHARM_DIR" = Some dir ->
  spawned (trace (snd (start (oneshot_charm (timedelta_new 0 5 0) allow) os a s)))
  = spawned (trace s)
    ++ [Popen (ArgString ("sleep 5; " +:+ dir +:+ "/dispatch"))
          (child_env (effective_env a (_stored s))) true]
  /\ (sh_plain dir = true ->
      sh_commands ("sleep 5; " +:+ dir +:+ "/dispatch")
      = [["sleep"; "5"]; [dir +:+ "/dispatch"]]).
Proof.
  intros Hdir. split.
  - rewrite start_spawned. unfold start_request, execute_charm. rewrite Hdir.
    reflexivity.
  - intros Hpl. destruct (sh_plain_spec dir Hpl) as [Hsemi Hsp].
    unfold sh_commands.
    change ("sleep 5; " +:+ dir +:+ "/dispatch")
      with ("sleep 5" +:+ String ";" (String " " (dir +:+ "/dispatch"))).
    rewrite sh_list_semicolon by reflexivity.
    rewrite sh_list_no_semicolon
      by (cbn [contains]; rewrite contains_app, Hsemi; reflexivity).
    cbn [List.map].
    change (split (String " " (dir +:+ "/dispatch"))) with (split (dir +:+ "/dispatch")).
    rewrite (split_single (dir +:+ "/dispatch")).
    + reflexivity.
    + destruct dir; discriminate.
    + rewrite nospace_app, Hsp. reflexivity.
Qed.

Lemma oneshot_five_seconds_command_witness :
  spawned (trace (snd (start (oneshot_charm (timedelta_new 0 5 0) false) charm_os None
                         (initial (set_default None)))))
  = [Popen (ArgString "sleep 5; /var/lib/juju/charm/dispatch") (child_env ∅) true]
  /\ sh_commands "sleep 5; /var/lib/juju/charm/dispatch"
     = [["sleep"; "5"]; ["/var/lib/juju/charm/dispatch"]].
Proof.
  destruct (oneshot_five_seconds_command false charm_os None
              (initial (set_default None)) "/var/lib/juju/charm" eq_refl) as [Hcmd Hsh].
  split; [exact Hcmd|exact (Hsh eq_refl)].
Defined.
